(** * The provides side of the pgsql relation (provides.py)

    A shallow embedding of the [PostgreSQL] relation class: the
    [joined_changed] hook handler, the two provisioning methods
    [provide_database] and [ack_roles], and the query methods.  The methods
    are state-passing functions over a store of per-service conversations. *)

From Stdlib Require Import ZArith Ascii.
From stdpp Require Import gmap strings list fin_maps.

Open Scope string_scope.

(** ** Python values *)

(** The values that travel through the class: [None], [str], [int], and the
    [list] and [tuple] containers. *)
#[local] Unset Elimination Schemes.
Inductive pyval : Type :=
  | PyNone
  | PyStr (s : string)
  | PyInt (z : Z)
  | PyList (l : list pyval)
  | PyTuple (l : list pyval).
#[local] Set Elimination Schemes.

(** Python's [==] on these values: same type and same content, containers
    compared element by element. *)
Fixpoint py_eq (a b : pyval) : bool :=
  let fix all2 (l m : list pyval) : bool :=
    match l, m with
    | [], [] => true
    | x :: l', y :: m' => py_eq x y && all2 l' m'
    | _, _ => false
    end in
  match a, b with
  | PyNone, PyNone => true
  | PyStr s, PyStr t => bool_decide (s = t)
  | PyInt x, PyInt y => bool_decide (x = y)
  | PyList l, PyList m => all2 l m
  | PyTuple l, PyTuple m => all2 l m
  | _, _ => false
  end.

(** Python's [!=]. *)
Definition py_ne (a b : pyval) : bool := negb (py_eq a b).

(** Truthiness of a string, as [filter(None, ...)] tests it. *)
Definition truthy (w : string) : bool :=
  match w with
  | EmptyString => false
  | String _ _ => true
  end.

(** [s.split(sep)] for a one-character separator: one piece more than there
    are separators, empty pieces kept. *)
Fixpoint split (sep : ascii) (s : string) : list string :=
  match s with
  | EmptyString => [EmptyString]
  | String c s' =>
      if Ascii.eqb c sep then EmptyString :: split sep s'
      else match split sep s' with
           | [] => [String c EmptyString]
           | w :: ws => String c w :: ws
           end
  end.

(** [sep.join(ws)]. *)
Fixpoint join (sep : ascii) (ws : list string) : string :=
  match ws with
  | [] => EmptyString
  | [w] => w
  | w :: ws' => w ++ String sep (join sep ws')
  end.

(** [c in w]. *)
Fixpoint occurs (c : ascii) (w : string) : bool :=
  match w with
  | EmptyString => false
  | String d w' => Ascii.eqb d c || occurs c w'
  end.

(** ** The conversation store *)

(** Modelled from the spec: the conversation of the framework, one per
    remote service.  A relation carries one bag of settings per side, and
    each side writes its own and reads the other's: [remote] holds the
    settings received from the remote service (read by [get_remote]);
    [published] holds the settings this side has set for the remote service
    to read (written by [set_remote]); [local] is this side's own memory
    (read and written by [get_local] and [set_local]); [states] is the set
    of states active for the conversation. *)
Record Conversation : Type := mkConversation {
  remote : gmap string string;
  published : gmap string pyval;
  local : gmap string pyval;
  states : gset string
}.

Definition empty_conversation : Conversation :=
  {| remote := ∅; published := ∅; local := ∅; states := ∅ |}.

(** The store, keyed by conversation scope (the service name). *)
Abbreviation Store := (gmap string Conversation).

(** The conversation of a scope as the store has it, a fresh one when the
    scope is unknown. *)
Definition conv (scope : string) (s : Store) : Conversation :=
  default empty_conversation (s !! scope).

(** ** The state monad of the methods *)

Definition M (A : Type) : Type := Store → A * Store.

#[global] Instance M_ret : MRet M := λ A a s, (a, s).

#[global] Instance M_bind : MBind M :=
  λ A B k m s, let (a, s') := m s in k a s'.

Definition eval {A} (m : M A) (s : Store) : A := (m s).1.
Definition exec {A} (m : M A) (s : Store) : Store := (m s).2.

Fixpoint mapM {A B} (f : A → M B) (l : list A) : M (list B) :=
  match l with
  | [] => mret []
  | x :: l' => y ← f x; ys ← mapM f l'; mret (y :: ys)
  end.

(** ** The conversation interface of the reactive framework

    [RelationBase], its conversations and the decorators come from the
    framework ([charmhelpers.core.reactive]); the class uses them through
    the operations below. *)

(** A conversation object is a handle on the store entry of its scope, so
    that every object obtained for one scope shares one state. *)
Record handle : Type := mkHandle { scope : string }.

(** Modelled from the spec: [self.conversation(scope)] returns the
    conversation of the scope, creating it when the store has none. *)
Definition conversation (sc : string) : M handle :=
  λ s, (mkHandle sc, <[sc := conv sc s]> s).

(** Modelled from the spec: [self.conversations()] enumerates every
    conversation of the store, in the store's order. *)
Definition conversations : M (list handle) :=
  λ s, ((λ kv, mkHandle kv.1) <$> map_to_list s, s).

(** A write through a handle: the entry of its scope is replaced. *)
Definition update (c : handle) (f : Conversation → Conversation) : M unit :=
  λ s, (tt, <[scope c := f (conv (scope c) s)]> s).

(** Modelled from the spec: [conversation.get_remote(key, default)] reads a
    setting received from the remote service, [default] when it is absent. *)
Definition get_remote (c : handle) (key dflt : string) : M string :=
  λ s, (default dflt (remote (conv (scope c) s) !! key), s).

(** Modelled from the spec: [conversation.set_remote(key=value, ...)] sets
    all the given settings for the remote service at once. *)
Definition set_remote (c : handle) (data : list (string * pyval)) : M unit :=
  update c (λ cv,
    {| remote := remote cv;
       published := list_to_map data ∪ published cv;
       local := local cv;
       states := states cv |}).

(** Modelled from the spec: [conversation.get_local(key)] reads a local
    field, [None] when it was never set. *)
Definition get_local (c : handle) (key : string) : M pyval :=
  λ s, (default PyNone (local (conv (scope c) s) !! key), s).

(** Modelled from the spec: [conversation.set_local(key, value)]. *)
Definition set_local (c : handle) (key : string) (value : pyval) : M unit :=
  update c (λ cv,
    {| remote := remote cv;
       published := published cv;
       local := <[key := value]> (local cv);
       states := states cv |}).

(** Modelled from the spec: [conversation.set_state(state)] activates a
    state for the conversation. *)
Definition set_state (c : handle) (state : string) : M unit :=
  update c (λ cv,
    {| remote := remote cv;
       published := published cv;
       local := local cv;
       states := {[state]} ∪ states cv |}).

(** Modelled from the spec: [conversation.remove_state(state)] deactivates
    a state for the conversation. *)
Definition remove_state (c : handle) (state : string) : M unit :=
  update c (λ cv,
    {| remote := remote cv;
       published := published cv;
       local := local cv;
       states := states cv ∖ {[state]} |}).

(** [@not_until(state)] is the framework's assertion that a method is not
    called before the state is active.  It only asserts: a call made too
    early is reported in the log and the method runs all the same.  The log
    is no part of the store, so on the store the decorated method is the
    method. *)
Definition not_until {A} (desired_state : string) (method : M A) : M A :=
  method.

(** ** The PostgreSQL class *)

Definition database_requested : string := "{relation_name}.database.requested".
Definition roles_requested : string := "{relation_name}.roles.requested".

Definition comma : ascii := "," %char.

Definition previous_database (service : string) : M pyval :=
  c ← conversation service;
  get_local c "database".

Definition requested_database (service : string) : M string :=
  c ← conversation service;
  get_remote c "database" "".

Definition previous_roles (service : string) : M pyval :=
  c ← conversation service;
  get_local c "roles".

(** The lambda [_roles] of [requested_roles]; [filter(None, pieces)] is the
    list of the non-empty pieces. *)
Definition _roles (c : handle) : M pyval :=
  v ← get_remote c "roles" "";
  mret (PyList (PyStr <$> filter (λ w, truthy w) (split comma v))).

Definition requested_roles (service : option string) : M pyval :=
  match service with
  | Some service =>
      c ← conversation service;
      _roles c
  | None =>
      cs ← conversations;
      results ← mapM (λ c,
                   let service := scope c in
                   r ← _roles c;
                   mret (PyTuple [PyStr service; r])) cs;
      mret (PyList results)
  end.

(** The generator, run to its end. *)
Definition requested_databases : M (list (string * string)) :=
  cs ← conversations;
  mapM (λ c,
     let service := scope c in
     database ← requested_database service;
     mret (service, database)) cs.

(** The hook handler; [remote_service] is what [hookenv.remote_service()]
    gives for the running hook, which is also the scope of
    [self.conversation()]. *)
Definition joined_changed (remote_service : string) : M unit :=
  let service := remote_service in
  c ← conversation remote_service;
  prev ← previous_database service;
  req ← requested_database service;
  _ ← (if py_ne prev (PyStr req)
       then set_state c database_requested else mret tt);
  prev ← previous_roles service;
  req ← requested_roles (Some service);
  if py_ne prev req then set_state c roles_requested else mret tt.

Definition provide_database
    (service : string)
    (host port database user password schema_user schema_password state : pyval)
    : M unit :=
  not_until "{interface:pgsql}.database.requested" (
    c ← conversation service;
    _ ← set_remote c
          [("host", host); ("port", port); ("database", database);
           ("user", user); ("password", password);
           ("schema_user", schema_user);
           ("schema_password", schema_password); ("state", state)];
    _ ← set_local c "database" database;
    remove_state c database_requested).

Definition ack_roles (service : string) (roles : pyval) : M unit :=
  not_until "{interface:pgsql}.roles.requested" (
    c ← conversation service;
    _ ← set_local c "roles" roles;
    remove_state c roles_requested).

(** ** Auxiliary definitions *)

(** Induction on values, through the elements of the containers. *)
Section pyval_induction.
Variable P : pyval → Prop.
Hypothesis HNone : P PyNone.
Hypothesis HStr : ∀ s, P (PyStr s).
Hypothesis HInt : ∀ z, P (PyInt z).
Hypothesis HList : ∀ l, Forall P l → P (PyList l).
Hypothesis HTuple : ∀ l, Forall P l → P (PyTuple l).

Fixpoint pyval_ind (v : pyval) : P v :=
  let fix all (l : list pyval) : Forall P l :=
    match l with
    | [] => List.Forall_nil P
    | x :: l' => List.Forall_cons P x l' (pyval_ind x) (all l')
    end in
  match v with
  | PyNone => HNone
  | PyStr s => HStr s
  | PyInt z => HInt z
  | PyList l => HList l (all l)
  | PyTuple l => HTuple l (all l)
  end.
End pyval_induction.

(** What the hook handler makes of a conversation: the states it adds. *)
Definition raised (cv : Conversation) : gset string :=
  (if py_ne (default PyNone (local cv !! "roles"))
        (PyList (PyStr <$> filter (λ w, truthy w)
                   (split comma (default "" (remote cv !! "roles")))))
   then {[roles_requested]} else ∅) ∪
  (if py_ne (default PyNone (local cv !! "database"))
        (PyStr (default "" (remote cv !! "database")))
   then {[database_requested]} else ∅).

(** The eight settings [provide_database] publishes. *)
Definition answer_fields : list string :=
  ["host"; "port"; "database"; "user"; "password";
   "schema_user"; "schema_password"; "state"].

(** A provider with two services related: wordpress asks for a generated
    database name and two roles, mediawiki has sent nothing yet. *)
Definition two_services : Store :=
  {[ "wordpress" := {| remote := {[ "database" := ""; "roles" := "admin,readonly" ]};
                       published := ∅; local := ∅; states := ∅ |};
     "mediawiki" := empty_conversation ]}.

(** A store in which wordpress has been answered: it asked for [wp_db] and
    for two roles, both were provided and acknowledged, and no state is
    active. *)
Definition answered : Store :=
  {[ "wordpress" :=
       {| remote := {[ "database" := "wp_db"; "roles" := "admin,readonly" ]};
          published := {[ "database" := PyStr "wp_db" ]};
          local := {[ "database" := PyStr "wp_db";
                      "roles" := PyList [PyStr "admin"; PyStr "readonly"] ]};
          states := ∅ |} ]}.

(** * Properties *)

(** ** Python equality is structural equality *)

Lemma py_eq_all2 (l : list pyval) :
  Forall (λ a, ∀ b, py_eq a b = true ↔ a = b) l →
  ∀ m,
    (fix all2 (l m : list pyval) : bool :=
       match l, m with
       | [], [] => true
       | x :: l', y :: m' => py_eq x y && all2 l' m'
       | _, _ => false
       end) l m = true ↔ l = m.
Proof.
  induction 1 as [|x l Hx _ IH]; intros [|y m]; try (split; [discriminate | congruence]).
  - done.
  - rewrite andb_true_iff, Hx, IH. split; [intros [-> ->]; done | intros [= -> ->]; done].
Qed.

Lemma py_eq_spec (a b : pyval) : py_eq a b = true ↔ a = b.
Proof.
  revert b. induction a as [|s|z|l IH|l IH] using pyval_ind; intros [|t|y|m|m];
    simpl; try (split; [discriminate | congruence]); try done.
  - rewrite bool_decide_eq_true. split; congruence.
  - rewrite bool_decide_eq_true. split; congruence.
  - rewrite (py_eq_all2 l IH m). split; congruence.
  - rewrite (py_eq_all2 l IH m). split; congruence.
Qed.

Lemma py_ne_spec (a b : pyval) : py_ne a b = true ↔ a ≠ b.
Proof.
  unfold py_ne. rewrite negb_true_iff, <- not_true_iff_false, py_eq_spec. done.
Qed.

Lemma py_ne_false (a b : pyval) : py_ne a b = false ↔ a = b.
Proof.
  unfold py_ne. rewrite negb_false_iff. apply py_eq_spec.
Qed.

(** ** Splitting and joining *)

Lemma split_not_nil sep s : split sep s ≠ [].
Proof.
  destruct s as [|c s]; simpl; [done|].
  destruct (Ascii.eqb c sep); [done|]. by destruct (split sep s).
Qed.

Lemma join_cons sep w ws :
  ws ≠ [] → join sep (w :: ws) = w ++ String sep (join sep ws).
Proof. by destruct ws. Qed.

Lemma join_split sep s : join sep (split sep s) = s.
Proof.
  induction s as [|c s IH]; simpl; [done|].
  destruct (Ascii.eqb c sep) eqn:E.
  - apply Ascii.eqb_eq in E as ->.
    rewrite join_cons by apply split_not_nil. simpl. by rewrite IH.
  - pose proof (split_not_nil sep s) as Hne.
    destruct (split sep s) as [|w ws]; [done|].
    destruct ws as [|w' ws]; simpl in *; by rewrite <- IH.
Qed.

Lemma split_no_sep sep s : Forall (λ w, occurs sep w = false) (split sep s).
Proof.
  induction s as [|c s IH]; simpl.
  - by constructor.
  - destruct (Ascii.eqb c sep) eqn:E.
    + by constructor.
    + destruct (split sep s) as [|w ws]; simpl.
      * constructor; [|done]. simpl. by rewrite E.
      * inversion IH as [|? ? Hw Hws]; subst.
        constructor; [|done]. simpl. by rewrite E, Hw.
Qed.

Example split_keeps_empty_pieces :
  split comma "a,,b," = ["a"; ""; "b"; ""] ∧ split comma "" = [""].
Proof. done. Qed.

(** ** Running the framework operations *)

Lemma conv_insert_eq k c (s : Store) : conv k (<[k := c]> s) = c.
Proof. unfold conv. by rewrite lookup_insert_eq. Qed.

Lemma conv_insert_ne k k' c (s : Store) :
  k ≠ k' → conv k' (<[k := c]> s) = conv k' s.
Proof. intros. unfold conv. by rewrite lookup_insert_ne. Qed.

Lemma insert_conv_id k (s : Store) :
  is_Some (s !! k) → <[k := conv k s]> s = s.
Proof.
  intros [c Hc]. apply insert_id. unfold conv. by rewrite Hc.
Qed.

Ltac run :=
  unfold not_until, eval, exec, previous_database, requested_database,
    previous_roles, requested_roles, _roles, conversation, get_local,
    get_remote, set_remote, set_local, set_state, remove_state, update,
    mbind, M_bind, mret, M_ret;
  simpl;
  rewrite ?conv_insert_eq, ?insert_insert_eq;
  simpl.

Lemma previous_database_run P s :
  previous_database P s =
    (default PyNone (local (conv P s) !! "database"), <[P := conv P s]> s).
Proof. by run. Qed.

Lemma requested_database_run P s :
  requested_database P s =
    (default "" (remote (conv P s) !! "database"), <[P := conv P s]> s).
Proof. by run. Qed.

Lemma previous_roles_run P s :
  previous_roles P s =
    (default PyNone (local (conv P s) !! "roles"), <[P := conv P s]> s).
Proof. by run. Qed.

Lemma requested_roles_run P s :
  requested_roles (Some P) s =
    (PyList (PyStr <$> filter (λ w, truthy w)
                         (split comma (default "" (remote (conv P s) !! "roles")))),
     <[P := conv P s]> s).
Proof. by run. Qed.

Lemma joined_changed_run P s :
  joined_changed P s =
    (tt, <[P := {| remote := remote (conv P s);
                   published := published (conv P s);
                   local := local (conv P s);
                   states := raised (conv P s) ∪ states (conv P s) |}]> s).
Proof.
  unfold joined_changed, raised. run.
  set (cv := conv P s).
  destruct (py_ne (default PyNone (local cv !! "database")) _); run;
    destruct (py_ne (default PyNone (local cv !! "roles")) _); run;
    do 2 f_equal; try (destruct cv; simpl); f_equal;
    by rewrite ?(left_id_L ∅ (∪)), ?(assoc_L (∪)).
Qed.

Lemma provide_database_run P host port database user password
    schema_user schema_password state s :
  provide_database P host port database user password
      schema_user schema_password state s =
    (tt, <[P := {| remote := remote (conv P s);
                   published :=
                     list_to_map
                       [("host", host); ("port", port); ("database", database);
                        ("user", user); ("password", password);
                        ("schema_user", schema_user);
                        ("schema_password", schema_password);
                        ("state", state)] ∪ published (conv P s);
                   local := <["database" := database]> (local (conv P s));
                   states := states (conv P s) ∖ {[database_requested]} |}]> s).
Proof. unfold provide_database. by run. Qed.

Lemma ack_roles_run P roles s :
  ack_roles P roles s =
    (tt, <[P := {| remote := remote (conv P s);
                   published := published (conv P s);
                   local := <["roles" := roles]> (local (conv P s));
                   states := states (conv P s) ∖ {[roles_requested]} |}]> s).
Proof. unfold ack_roles. by run. Qed.

Lemma flags_distinct : database_requested ≠ roles_requested.
Proof. done. Qed.

Lemma elem_of_raised st cv :
  st ∈ raised cv ↔
    (st = roles_requested ∧
     default PyNone (local cv !! "roles") ≠
       PyList (PyStr <$> filter (λ w, truthy w)
                 (split comma (default "" (remote cv !! "roles"))))) ∨
    (st = database_requested ∧
     default PyNone (local cv !! "database") ≠
       PyStr (default "" (remote cv !! "database"))).
Proof.
  unfold raised. rewrite elem_of_union.
  destruct (py_ne (default PyNone (local cv !! "roles")) _) eqn:E1;
    [apply py_ne_spec in E1 | apply py_ne_false in E1];
  (destruct (py_ne (default PyNone (local cv !! "database")) _) eqn:E2;
    [apply py_ne_spec in E2 | apply py_ne_false in E2]);
  rewrite ?elem_of_singleton, ?elem_of_empty; tauto.
Qed.

Lemma states_joined_changed P s st :
  st ∈ states (conv P (exec (joined_changed P) s)) ↔
    st ∈ raised (conv P s) ∨ st ∈ states (conv P s).
Proof.
  unfold exec. rewrite joined_changed_run. simpl.
  rewrite conv_insert_eq. simpl. apply elem_of_union.
Qed.

(** ** The hook handler *)

(** C1: after [joined_changed] for a service, [database.requested] is
    active exactly when the requested database (the remote [database], by
    default the empty string) differs from the previous database (the local
    [database]) or the state was active before: the handler sets the state
    on a difference, leaves it as it was otherwise, and never removes it. *)
Theorem joined_changed_database_requested P s :
  eval (requested_database P) s = default "" (remote (conv P s) !! "database") ∧
  eval (previous_database P) s = default PyNone (local (conv P s) !! "database") ∧
  (database_requested ∈ states (conv P (exec (joined_changed P) s)) ↔
     eval (previous_database P) s ≠ PyStr (eval (requested_database P) s) ∨
     database_requested ∈ states (conv P s)).
Proof.
  unfold eval at 1 2 3 4. rewrite previous_database_run, requested_database_run.
  simpl. split_and!; [done..|].
  rewrite states_joined_changed, elem_of_raised.
  pose proof flags_distinct. intuition congruence.
Qed.

(** C2: after [joined_changed] for a service, [roles.requested] is active
    exactly when the remote [roles] string, split on commas with the empty
    entries dropped, differs from the local [roles] value or the state was
    active before; the handler never removes the state. *)
Theorem joined_changed_roles_requested P s :
  eval (requested_roles (Some P)) s =
    PyList (PyStr <$> filter (λ w, truthy w)
              (split comma (default "" (remote (conv P s) !! "roles")))) ∧
  eval (previous_roles P) s = default PyNone (local (conv P s) !! "roles") ∧
  (roles_requested ∈ states (conv P (exec (joined_changed P) s)) ↔
     eval (previous_roles P) s ≠ eval (requested_roles (Some P)) s ∨
     roles_requested ∈ states (conv P s)).
Proof.
  unfold eval at 1 2 3 4. rewrite previous_roles_run, requested_roles_run.
  simpl. split_and!; [done..|].
  rewrite states_joined_changed, elem_of_raised.
  pose proof flags_distinct. intuition congruence.
Qed.

(** ** Provisioning *)

(** C3: [provide_database] publishes the eight settings host, port,
    database, user, password, schema_user, schema_password and state to the
    service and nothing else, records the database as the local [database],
    removes [database.requested], touches neither what the service sent, nor
    another local key, nor another state, nor another service, and returns
    nothing. *)
Theorem provide_database_effect service host port database user password
    schema_user schema_password state s :
  published (conv service (exec (provide_database service host port database
      user password schema_user schema_password state) s)) =
    <["host" := host]> (<["port" := port]> (<["database" := database]>
      (<["user" := user]> (<["password" := password]>
        (<["schema_user" := schema_user]>
          (<["schema_password" := schema_password]>
            (<["state" := state]> (published (conv service s)))))))))
  ∧ (∀ k, k ∉ answer_fields →
       published (conv service (exec (provide_database service host port
           database user password schema_user schema_password state) s)) !! k
       = published (conv service s) !! k)
  ∧ remote (conv service (exec (provide_database service host port database
        user password schema_user schema_password state) s))
    = remote (conv service s)
  ∧ local (conv service (exec (provide_database service host port database
        user password schema_user schema_password state) s))
    = <["database" := database]> (local (conv service s))
  ∧ states (conv service (exec (provide_database service host port database
        user password schema_user schema_password state) s))
    = states (conv service s) ∖ {[database_requested]}
  ∧ (∀ other, other ≠ service →
       exec (provide_database service host port database user password
           schema_user schema_password state) s !! other = s !! other)
  ∧ eval (provide_database service host port database user password
        schema_user schema_password state) s = tt.
Proof.
  unfold exec, eval. rewrite provide_database_run. simpl.
  rewrite conv_insert_eq. simpl. split_and!; try done.
  - apply map_eq. intros k. rewrite lookup_union. simpl.
    rewrite !lookup_insert, lookup_empty.
    repeat case_decide; by destruct (published (conv service s) !! k).
  - intros k Hk. rewrite lookup_union, !lookup_insert, lookup_empty.
    repeat case_decide; subst;
      try (exfalso; apply Hk; unfold answer_fields; by repeat constructor).
    by destruct (published (conv service s) !! k).
  - intros other Hne. by rewrite lookup_insert_ne.
Qed.

(** C4: [ack_roles] records the roles exactly as they are given as the
    local [roles] and removes [roles.requested], leaving every other state
    as it was; [previous_roles] then returns the very value given. *)
Theorem ack_roles_effect service roles s :
  local (conv service (exec (ack_roles service roles) s)) !! "roles" = Some roles
  ∧ eval (previous_roles service) (exec (ack_roles service roles) s) = roles
  ∧ exec (previous_roles service) (exec (ack_roles service roles) s)
    = exec (ack_roles service roles) s
  ∧ states (conv service (exec (ack_roles service roles) s))
    = states (conv service s) ∖ {[roles_requested]}
  ∧ roles_requested ∉ states (conv service (exec (ack_roles service roles) s)).
Proof.
  unfold exec, eval. rewrite ack_roles_run, previous_roles_run. simpl.
  rewrite conv_insert_eq, insert_insert_eq. simpl. rewrite lookup_insert_eq.
  split_and!; try done.
  intros [_ H]%elem_of_difference. by apply H, elem_of_singleton.
Qed.

(** ** Queries *)

(** C7: [requested_roles] for a service is the remote [roles] string split
    on commas with the empty pieces dropped, as a list: every role in it is
    non-empty and holds no comma, the string ["a,,b,"] gives [["a", "b"]],
    and a missing or empty string gives the empty list.  The split itself
    loses nothing: joining its pieces with commas gives the string back. *)
Theorem requested_roles_parsed P s :
  eval (requested_roles (Some P)) s =
    PyList (PyStr <$> filter (λ w, truthy w)
              (split comma (default "" (remote (conv P s) !! "roles"))))
  ∧ join comma (split comma (default "" (remote (conv P s) !! "roles")))
    = default "" (remote (conv P s) !! "roles")
  ∧ Forall (λ w, w ≠ "" ∧ occurs comma w = false)
      (filter (λ w, truthy w)
         (split comma (default "" (remote (conv P s) !! "roles"))))
  ∧ (remote (conv P s) !! "roles" = Some "a,,b," →
       eval (requested_roles (Some P)) s = PyList [PyStr "a"; PyStr "b"])
  ∧ (remote (conv P s) !! "roles" = None →
       eval (requested_roles (Some P)) s = PyList [])
  ∧ (remote (conv P s) !! "roles" = Some "" →
       eval (requested_roles (Some P)) s = PyList []).
Proof.
  unfold eval. rewrite requested_roles_run. simpl.
  split_and!; [done | apply join_split | | by intros -> ..].
  apply Forall_forall. intros w [Hw Hin]%list_elem_of_filter. split.
  - by destruct w.
  - pose proof (split_no_sep comma (default "" (remote (conv P s) !! "roles"))) as H.
    rewrite Forall_forall in H. by apply H.
Qed.

Lemma requested_roles_parsed_witness :
  eval (requested_roles (Some "wordpress"))
    (<["wordpress" := {| remote := {[ "roles" := "a,,b," ]}; published := ∅;
                         local := ∅; states := ∅ |}]> two_services)
  = PyList [PyStr "a"; PyStr "b"].
Proof.
  apply (requested_roles_parsed "wordpress"). vm_compute. reflexivity.
Defined.

(** ** Enumerations leave the store as it is *)

Lemma mapM_exec_id {A B} (f : A → M B) (l : list A) s :
  Forall (λ x, exec (f x) s = s) l → exec (mapM f l) s = s.
Proof.
  unfold exec. induction 1 as [|x l Hx _ IH]; simpl; [done|].
  unfold mbind, M_bind, mret, M_ret.
  destruct (f x s) as [y s'] eqn:E. simpl in Hx. subst s'.
  by destruct (mapM f l s) as [ys s''].
Qed.

Lemma conversations_known s :
  Forall (λ c, is_Some (s !! scope c)) (eval conversations s).
Proof.
  unfold eval, conversations. simpl. apply Forall_fmap, Forall_forall.
  intros [k c] Hin%elem_of_map_to_list. simpl. eauto.
Qed.

Lemma exec_bind {A B} (m : M A) (k : A → M B) s :
  exec (m ≫= k) s = exec (k (eval m s)) (exec m s).
Proof. unfold exec, eval, mbind, M_bind. by destruct (m s). Qed.

Lemma requested_roles_all_run s : exec (requested_roles None) s = s.
Proof.
  unfold requested_roles. rewrite !exec_bind.
  change (exec conversations s) with s.
  change (exec (mret ?x) ?t) with t.
  apply mapM_exec_id, Forall_forall. intros c _. by run.
Qed.

Lemma requested_databases_run s : exec requested_databases s = s.
Proof.
  unfold requested_databases. rewrite exec_bind.
  change (exec conversations s) with s.
  apply mapM_exec_id.
  eapply Forall_impl; [apply (conversations_known s)|].
  intros c Hc. simpl. rewrite exec_bind.
  change (exec (mret ?x) ?t) with t.
  unfold exec. rewrite requested_database_run. simpl.
  by apply insert_conv_id.
Qed.

Lemma local_conv_insert P Q c (s : Store) :
  local c = local (conv P s) →
  local (conv Q (<[P := c]> s)) = local (conv Q s).
Proof.
  intros Hc. destruct (decide (P = Q)) as [->|Hne].
  - by rewrite conv_insert_eq.
  - by rewrite conv_insert_ne.
Qed.

(** ** Isolation and stability *)

(** C8: an operation on one service leaves the conversation of every other
    service as it is, with what that service sent, what was published to
    it, its local fields and its states: the hook handler, both provisioning
    methods and every query. *)
Theorem operations_isolated P1 P2 s :
  P1 ≠ P2 →
  exec (joined_changed P1) s !! P2 = s !! P2
  ∧ (∀ host port database user password schema_user schema_password state,
       exec (provide_database P1 host port database user password
               schema_user schema_password state) s !! P2 = s !! P2)
  ∧ (∀ roles, exec (ack_roles P1 roles) s !! P2 = s !! P2)
  ∧ exec (requested_roles (Some P1)) s !! P2 = s !! P2
  ∧ exec (previous_roles P1) s !! P2 = s !! P2
  ∧ exec (requested_database P1) s !! P2 = s !! P2
  ∧ exec (previous_database P1) s !! P2 = s !! P2
  ∧ exec (requested_roles None) s !! P2 = s !! P2
  ∧ exec requested_databases s !! P2 = s !! P2.
Proof.
  intros Hne. rewrite requested_roles_all_run, requested_databases_run.
  unfold exec.
  rewrite joined_changed_run, requested_roles_run, previous_roles_run,
    requested_database_run, previous_database_run.
  split_and!; try done; intros;
    rewrite ?provide_database_run, ?ack_roles_run; simpl;
    by rewrite lookup_insert_ne.
Qed.

Lemma operations_isolated_witness :
  exec (joined_changed "wordpress") two_services !! "mediawiki"
  = two_services !! "mediawiki".
Proof.
  apply (operations_isolated "wordpress" "mediawiki" two_services).
  discriminate.
Defined.

(** C9: the local fields of every service stay as they are under the hook
    handler and under every query; of the two provisioning methods,
    [provide_database] leaves the local [roles] alone and [ack_roles] leaves
    the local [database] alone. *)
Theorem local_fields_stable P Q s :
  local (conv Q (exec (joined_changed P) s)) = local (conv Q s)
  ∧ local (conv Q (exec (requested_roles (Some P)) s)) = local (conv Q s)
  ∧ local (conv Q (exec (requested_roles None) s)) = local (conv Q s)
  ∧ local (conv Q (exec (previous_roles P) s)) = local (conv Q s)
  ∧ local (conv Q (exec requested_databases s)) = local (conv Q s)
  ∧ local (conv Q (exec (requested_database P) s)) = local (conv Q s)
  ∧ local (conv Q (exec (previous_database P) s)) = local (conv Q s)
  ∧ (∀ host port database user password schema_user schema_password state,
       local (conv Q (exec (provide_database P host port database user
                 password schema_user schema_password state) s)) !! "roles"
       = local (conv Q s) !! "roles")
  ∧ (∀ roles,
       local (conv Q (exec (ack_roles P roles) s)) !! "database"
       = local (conv Q s) !! "database").
Proof.
  rewrite requested_roles_all_run, requested_databases_run.
  unfold exec.
  rewrite joined_changed_run, requested_roles_run, previous_roles_run,
    requested_database_run, previous_database_run.
  split_and!; try done; intros;
    rewrite ?provide_database_run, ?ack_roles_run; simpl;
    try (by apply local_conv_insert).
  - destruct (decide (P = Q)) as [->|Hne];
      [rewrite conv_insert_eq | rewrite conv_insert_ne by done]; simpl; [|done].
    by rewrite lookup_insert_ne.
  - destruct (decide (P = Q)) as [->|Hne];
      [rewrite conv_insert_eq | rewrite conv_insert_ne by done]; simpl; [|done].
    by rewrite lookup_insert_ne.
Qed.

(** C10: a service with no local [database] and no local [roles] has [None]
    for both previous values, which equals neither the empty string nor the
    empty list; so after [joined_changed] for it both [database.requested]
    and [roles.requested] are active, whatever the service sent. *)
Theorem first_evaluation_requests_both P s :
  local (conv P s) !! "database" = None →
  local (conv P s) !! "roles" = None →
  eval (previous_database P) s = PyNone
  ∧ eval (previous_roles P) s = PyNone
  ∧ py_ne PyNone (PyStr "") = true
  ∧ py_ne PyNone (PyList []) = true
  ∧ database_requested ∈ states (conv P (exec (joined_changed P) s))
  ∧ roles_requested ∈ states (conv P (exec (joined_changed P) s)).
Proof.
  intros Hd Hr. unfold eval.
  rewrite previous_database_run, previous_roles_run. simpl.
  rewrite !states_joined_changed, !elem_of_raised, Hd, Hr. simpl.
  split_and!; try done.
  - left. right. done.
  - left. left. done.
Qed.

Lemma first_evaluation_requests_both_witness :
  database_requested ∈
    states (conv "mediawiki" (exec (joined_changed "mediawiki") two_services))
  ∧ roles_requested ∈
    states (conv "mediawiki" (exec (joined_changed "mediawiki") two_services)).
Proof.
  apply (first_evaluation_requests_both "mediawiki" two_services);
    vm_compute; reflexivity.
Defined.

Lemma raised_ext cv cv' :
  remote cv' = remote cv → local cv' = local cv → raised cv' = raised cv.
Proof. unfold raised. by intros -> ->. Qed.

(** The hook handler run twice is the hook handler run once. *)
Lemma joined_changed_idempotent P s :
  exec (joined_changed P) (exec (joined_changed P) s) = exec (joined_changed P) s.
Proof.
  unfold exec. rewrite !joined_changed_run. simpl.
  rewrite conv_insert_eq, insert_insert_eq. simpl.
  do 2 f_equal. rewrite (raised_ext _ (conv P s)) by done.
  by rewrite (assoc_L (∪)), (idemp_L (∪)).
Qed.

(** C5, as the code has it: the hook handler run twice in a row gives the
    store of one run; and after [provide_database] the next run of the
    handler, with nothing new from the service, leaves [database.requested]
    inactive exactly when the database provided is the one the service
    requests.  It does not touch what the service sent. *)
Theorem evaluation_after_provide P host port database user password
    schema_user schema_password state s :
  exec (joined_changed P) (exec (joined_changed P) s)
    = exec (joined_changed P) s
  ∧ remote (conv P (exec (provide_database P host port database user password
        schema_user schema_password state) s)) = remote (conv P s)
  ∧ (database_requested ∉
       states (conv P (exec (joined_changed P)
          (exec (provide_database P host port database user password
             schema_user schema_password state) s)))
     ↔ database = PyStr (eval (requested_database P) s)).
Proof.
  split; [apply joined_changed_idempotent|].
  rewrite states_joined_changed, elem_of_raised.
  unfold exec, eval. rewrite provide_database_run, requested_database_run.
  simpl. rewrite conv_insert_eq. simpl. rewrite lookup_insert_eq. simpl.
  split; [done|].
  rewrite elem_of_difference, elem_of_singleton.
  pose proof flags_distinct.
  destruct (py_ne database (PyStr (default "" (remote (conv P s) !! "database"))))
    eqn:E; [apply py_ne_spec in E | apply py_ne_false in E];
    intuition congruence.
Qed.

(** C5 fails as stated: wordpress asks for a generated name (the empty
    string) and is given [wp_db]; the state is removed, and the next run of
    the handler, with the same settings from wordpress, activates it again. *)
Lemma evaluation_after_provide_counterexample :
  ¬ (database_requested ∉
       states (conv "wordpress"
         (exec (provide_database "wordpress" (PyStr "10.0.0.5") (PyInt 5432)
                  (PyStr "wp_db") (PyStr "wp_user") (PyStr "secret")
                  (PyStr "admin_user") (PyStr "admin_secret") (PyStr "live"))
            (exec (joined_changed "wordpress") two_services))) →
     remote (conv "wordpress"
         (exec (provide_database "wordpress" (PyStr "10.0.0.5") (PyInt 5432)
                  (PyStr "wp_db") (PyStr "wp_user") (PyStr "secret")
                  (PyStr "admin_user") (PyStr "admin_secret") (PyStr "live"))
            (exec (joined_changed "wordpress") two_services)))
     = remote (conv "wordpress" two_services) →
     database_requested ∉
       states (conv "wordpress"
         (exec (joined_changed "wordpress")
            (exec (provide_database "wordpress" (PyStr "10.0.0.5") (PyInt 5432)
                     (PyStr "wp_db") (PyStr "wp_user") (PyStr "secret")
                     (PyStr "admin_user") (PyStr "admin_secret") (PyStr "live"))
               (exec (joined_changed "wordpress") two_services))))).
Proof.
  intros H. apply H.
  - apply (bool_decide_unpack _). vm_compute. exact I.
  - vm_compute. reflexivity.
  - apply (bool_decide_unpack _). vm_compute. exact I.
Qed.

(** C6, as the code has it: called for a service whose state is not active,
    a provisioning method leaves the states of the conversation and what the
    service sent as they are, and a second call with the same arguments
    changes nothing more; but it writes all the same: [provide_database]
    publishes its eight settings host, port, database, user, password,
    schema_user, schema_password and state, over what was published before,
    and records the local [database]; [ack_roles] records the local [roles]
    and publishes nothing. *)
Theorem provisioning_without_request P s :
  (database_requested ∉ states (conv P s) →
   ∀ host port database user password schema_user schema_password state,
     states (conv P (exec (provide_database P host port database user
        password schema_user schema_password state) s)) = states (conv P s)
     ∧ remote (conv P (exec (provide_database P host port database user
        password schema_user schema_password state) s)) = remote (conv P s)
     ∧ published (conv P (exec (provide_database P host port database user
        password schema_user schema_password state) s))
       = <["host" := host]> (<["port" := port]> (<["database" := database]>
           (<["user" := user]> (<["password" := password]>
             (<["schema_user" := schema_user]>
               (<["schema_password" := schema_password]>
                 (<["state" := state]> (published (conv P s)))))))))
     ∧ local (conv P (exec (provide_database P host port database user
        password schema_user schema_password state) s))
       = <["database" := database]> (local (conv P s))
     ∧ exec (provide_database P host port database user password
          schema_user schema_password state)
         (exec (provide_database P host port database user password
            schema_user schema_password state) s)
       = exec (provide_database P host port database user password
            schema_user schema_password state) s)
  ∧ (roles_requested ∉ states (conv P s) →
     ∀ roles,
       states (conv P (exec (ack_roles P roles) s)) = states (conv P s)
       ∧ remote (conv P (exec (ack_roles P roles) s)) = remote (conv P s)
       ∧ published (conv P (exec (ack_roles P roles) s))
         = published (conv P s)
       ∧ local (conv P (exec (ack_roles P roles) s))
         = <["roles" := roles]> (local (conv P s))
       ∧ exec (ack_roles P roles) (exec (ack_roles P roles) s)
         = exec (ack_roles P roles) s).
Proof.
  unfold exec. split; intros Hflag; intros;
    rewrite ?provide_database_run, ?ack_roles_run; simpl;
    rewrite ?conv_insert_eq, ?insert_insert_eq; simpl.
  - split_and!; try done.
    + apply difference_disjoint_L, disjoint_singleton_r, Hflag.
    + apply map_eq. intros k. rewrite lookup_union.
      rewrite !lookup_insert, lookup_empty.
      repeat case_decide; by destruct (published (conv P s) !! k).
    + do 2 f_equal.
      * by rewrite (assoc_L (∪)), (idemp_L (∪)).
      * apply insert_insert_eq.
      * by rewrite difference_twice_L.
  - split_and!; try done.
    + apply difference_disjoint_L, disjoint_singleton_r, Hflag.
    + do 2 f_equal.
      * apply insert_insert_eq.
      * by rewrite difference_twice_L.
Qed.

Lemma provisioning_without_request_witness :
  states (conv "wordpress"
     (exec (ack_roles "wordpress" (PyList [PyStr "admin"])) answered))
  = states (conv "wordpress" answered).
Proof.
  apply (proj2 (provisioning_without_request "wordpress" answered)).
  apply (bool_decide_unpack _). vm_compute. exact I.
Defined.

(** C6 fails as stated: with no state active for wordpress, [ack_roles]
    with another list replaces the recorded roles, and [provide_database]
    with another name replaces the recorded and the published database. *)
Lemma provisioning_without_request_counterexample :
  ¬ (roles_requested ∉ states (conv "wordpress" answered) →
     local (conv "wordpress"
        (exec (ack_roles "wordpress" (PyList [PyStr "admin"])) answered))
     = local (conv "wordpress" answered))
  ∧ ¬ (database_requested ∉ states (conv "wordpress" answered) →
       published (conv "wordpress"
          (exec (provide_database "wordpress" (PyStr "10.0.0.5") (PyInt 5432)
                   (PyStr "other_db") (PyStr "wp_user") (PyStr "secret")
                   (PyStr "admin_user") (PyStr "admin_secret") (PyStr "live"))
             answered))
       = published (conv "wordpress" answered)).
Proof.
  split; intros H.
  - assert (Hflag : roles_requested ∉ states (conv "wordpress" answered))
      by (apply (bool_decide_unpack _); vm_compute; exact I).
    apply H in Hflag. apply (f_equal (λ m, m !! "roles")) in Hflag.
    vm_compute in Hflag. discriminate.
  - assert (Hflag : database_requested ∉ states (conv "wordpress" answered))
      by (apply (bool_decide_unpack _); vm_compute; exact I).
    apply H in Hflag. apply (f_equal (λ m, m !! "database")) in Hflag.
    vm_compute in Hflag. discriminate.
Qed.

(** ** The scenario of a first request *)

(** wordpress sends an empty database name and two roles: the handler
    activates both states; providing [wp_db] and acknowledging the roles
    removes them and records both values, and the requested database is
    still the empty string. *)
Example first_request_scenario :
  let s1 := exec (joined_changed "wordpress") two_services in
  let s2 := exec (provide_database "wordpress" (PyStr "10.0.0.5") (PyInt 5432)
                    (PyStr "wp_db") (PyStr "wp_user") (PyStr "secret")
                    (PyStr "admin_user") (PyStr "admin_secret") (PyStr "live"))
              s1 in
  let s3 := exec (ack_roles "wordpress" (PyList [PyStr "admin"; PyStr "readonly"]))
              s2 in
  states (conv "wordpress" s1) = {[database_requested; roles_requested]}
  ∧ states (conv "wordpress" s2) = {[roles_requested]}
  ∧ eval (previous_database "wordpress") s2 = PyStr "wp_db"
  ∧ states (conv "wordpress" s3) = ∅
  ∧ eval (previous_roles "wordpress") s3 = PyList [PyStr "admin"; PyStr "readonly"]
  ∧ eval (requested_database "wordpress") s3 = ""
  ∧ eval (requested_roles None) s3 =
      PyList [PyTuple [PyStr "wordpress"; PyList [PyStr "admin"; PyStr "readonly"]];
              PyTuple [PyStr "mediawiki"; PyList []]].
Proof.
  simpl. split_and!; try (by vm_compute); apply (bool_decide_unpack _); by vm_compute.
Qed.

(** * Further properties of the class *)

(** ** The two enumerations *)

Lemma mapM_eval_id {A B} (f : A → M B) (l : list A) s :
  Forall (λ x, exec (f x) s = s) l →
  eval (mapM f l) s = (λ x, eval (f x) s) <$> l.
Proof.
  induction 1 as [|x l Hx Hl IH]; [done|].
  pose proof (mapM_exec_id f l s Hl) as Hs.
  unfold eval, exec in *. simpl. unfold mbind, M_bind, mret, M_ret.
  destruct (f x s) as [y s'] eqn:E. simpl in Hx. subst s'.
  destruct (mapM f l s) as [ys s''] eqn:E'. simpl in *. by subst.
Qed.

(** X1: [requested_roles()] without a service gives one pair per
    conversation of the store, in the store's order: the service and what
    [requested_roles(service)] gives for it; the store is left as it is. *)
Theorem requested_roles_all_lists_every_service s :
  eval (requested_roles None) s =
    PyList ((λ kv : string * Conversation,
               PyTuple [PyStr kv.1; eval (requested_roles (Some kv.1)) s])
            <$> map_to_list s)
  ∧ exec (requested_roles None) s = s.
Proof.
  split; [|apply requested_roles_all_run].
  unfold requested_roles at 1, eval at 1, mbind, M_bind. simpl.
  match goal with |- context [mapM ?f ?l s] =>
    pose proof (mapM_eval_id f l s) as He;
    pose proof (mapM_exec_id f l s) as Hx;
    destruct (mapM f l s) as [ys s'] eqn:E end.
  unfold eval, exec in He, Hx. rewrite E in He, Hx. simpl in *.
  rewrite He by (apply Forall_forall; intros c _; by run).
  f_equal. rewrite <- list_fmap_compose. apply list_fmap_ext.
  intros i [k cv] _. simpl. by run.
Qed.

Lemma requested_databases_eval s :
  eval requested_databases s =
    (λ kv : string * Conversation,
       (kv.1, default "" (remote kv.2 !! "database"))) <$> map_to_list s.
Proof.
  unfold requested_databases, eval at 1, mbind, M_bind, conversations.
  match goal with |- context [mapM ?f ?l s] =>
    pose proof (mapM_eval_id f l s) as He end.
  unfold eval in He at 1. rewrite He; clear He.
  - rewrite <- list_fmap_compose. apply list_fmap_ext.
    intros i [k cv] Hi. simpl.
    apply list_elem_of_lookup_2, elem_of_map_to_list in Hi.
    run. unfold conv. by rewrite Hi.
  - eapply Forall_impl; [apply (conversations_known s)|].
    intros c Hc. unfold exec. cbv beta.
    rewrite requested_database_run. simpl.
    by apply insert_conv_id.
Qed.

(** X2: [requested_databases()], run to its end, gives one pair per
    conversation of the store and no service twice: a pair is given exactly
    for a service the store knows, with what [requested_database(service)]
    gives for it, the empty string when the service named no database,
    whether or not a state is active for it; the store is left as it is. *)
Theorem requested_databases_lists_every_service s :
  eval requested_databases s =
    (λ kv : string * Conversation,
       (kv.1, eval (requested_database kv.1) s)) <$> map_to_list s
  ∧ (∀ service database,
       (service, database) ∈ eval requested_databases s ↔
       is_Some (s !! service) ∧
       database = default "" (remote (conv service s) !! "database"))
  ∧ NoDup (fst <$> eval requested_databases s)
  ∧ exec requested_databases s = s.
Proof.
  rewrite requested_databases_eval. split_and!.
  - apply list_fmap_ext. intros i [k cv] Hi. simpl.
    apply list_elem_of_lookup_2, elem_of_map_to_list in Hi.
    unfold eval. rewrite requested_database_run. simpl.
    unfold conv. by rewrite Hi.
  - intros service database. rewrite list_elem_of_fmap. split.
    + intros [[k cv] [[= -> ->] Hin%elem_of_map_to_list]]. simpl.
      unfold conv. rewrite Hin. eauto.
    + intros [[cv Hcv] ->]. exists (service, cv). simpl.
      unfold conv. rewrite Hcv. split; [done|]. by apply elem_of_map_to_list.
  - rewrite <- list_fmap_compose. apply NoDup_fst_map_to_list.
  - apply requested_databases_run.
Qed.

Lemma requested_databases_lists_every_service_witness :
  ("wordpress", "") ∈ eval requested_databases two_services.
Proof.
  apply (requested_databases_lists_every_service two_services).
  split; [eexists; vm_compute; reflexivity | vm_compute; reflexivity].
Defined.

(** ** Answering, then evaluating again *)

Lemma py_ne_refl a : py_ne a a = false.
Proof. by apply py_ne_false. Qed.

(** X3: after [ack_roles] for a service with a list of role names, the
    next run of the hook handler leaves [roles.requested] inactive exactly
    when the names acknowledged are the names [requested_roles(service)]
    gives, in their order, as in the loop of the docstring; any other list
    of names, a reordering too, has the state activated again. *)
Theorem evaluation_after_ack P (names : list string) s :
  (roles_requested ∉
     states (conv P (exec (joined_changed P)
                       (exec (ack_roles P (PyList (PyStr <$> names))) s)))
   ↔ PyList (PyStr <$> names) = eval (requested_roles (Some P)) s)
  ∧ (PyList (PyStr <$> names) = eval (requested_roles (Some P)) s
     ↔ names = filter (λ w, truthy w)
                 (split comma (default "" (remote (conv P s) !! "roles")))).
Proof.
  split.
  - rewrite states_joined_changed, elem_of_raised.
    unfold exec, eval. rewrite ack_roles_run, requested_roles_run.
    simpl. rewrite conv_insert_eq. simpl. rewrite lookup_insert_eq. simpl.
    rewrite elem_of_difference, elem_of_singleton.
    pose proof flags_distinct.
    match goal with |- context [?roles ≠ PyList ?r] =>
      destruct (py_ne roles (PyList r)) eqn:E;
        [apply py_ne_spec in E | apply py_ne_false in E] end;
      intuition congruence.
  - unfold eval. rewrite requested_roles_run. simpl. split.
    + assert (Hinj : Inj (=) (=) PyStr) by (by intros ?? [=]).
      intros [= Heq]. revert Heq. apply (inj (fmap PyStr)).
    + by intros <-.
Qed.

(** X4: once a service has been provided the database it requests and has
    had the roles it requests acknowledged, neither of the two states is
    active for it, and the hook handler changes nothing: it activates no
    state and leaves the store as it is. *)
Theorem answered_service_is_quiet P host port user password schema_user
    schema_password state s :
  exec (joined_changed P)
    (exec (ack_roles P (eval (requested_roles (Some P)) s))
       (exec (provide_database P host port
                (PyStr (eval (requested_database P) s))
                user password schema_user schema_password state) s))
  = exec (ack_roles P (eval (requested_roles (Some P)) s))
      (exec (provide_database P host port
               (PyStr (eval (requested_database P) s))
               user password schema_user schema_password state) s)
  ∧ (database_requested ∉
      states (conv P
        (exec (ack_roles P (eval (requested_roles (Some P)) s))
           (exec (provide_database P host port
                    (PyStr (eval (requested_database P) s))
                    user password schema_user schema_password state) s))))
  ∧ (roles_requested ∉
      states (conv P
        (exec (ack_roles P (eval (requested_roles (Some P)) s))
           (exec (provide_database P host port
                    (PyStr (eval (requested_database P) s))
                    user password schema_user schema_password state) s)))).
Proof.
  unfold exec, eval.
  rewrite joined_changed_run, ack_roles_run, provide_database_run,
    requested_roles_run, requested_database_run.
  simpl. rewrite !conv_insert_eq, !insert_insert_eq. simpl.
  split_and!.
  - do 2 f_equal. unfold raised. simpl.
    rewrite lookup_insert_eq, lookup_insert_ne, lookup_insert_eq by done.
    simpl. rewrite !py_ne_refl. by rewrite !(left_id_L ∅ (∪)).
  - rewrite !elem_of_difference, !elem_of_singleton. tauto.
  - rewrite !elem_of_difference, !elem_of_singleton. tauto.
Qed.

(** ** How the provisioning methods compose *)

(** X5: [provide_database] and [ack_roles] commute, for one service as for
    two: answering the database first or the roles first gives the same
    store. *)
Theorem provide_database_ack_roles_commute P Q roles host port database user
    password schema_user schema_password state s :
  exec (ack_roles Q roles)
    (exec (provide_database P host port database user password schema_user
             schema_password state) s)
  = exec (provide_database P host port database user password schema_user
            schema_password state)
      (exec (ack_roles Q roles) s).
Proof.
  unfold exec. rewrite !ack_roles_run, !provide_database_run. simpl.
  destruct (decide (P = Q)) as [->|Hne].
  - rewrite !conv_insert_eq, !insert_insert_eq. simpl. do 2 f_equal.
    + by apply insert_insert_ne.
    + by rewrite !difference_difference_l_L, (union_comm_L {[database_requested]}).
  - rewrite (conv_insert_ne P Q), (conv_insert_ne Q P) by done.
    by apply insert_insert_ne.
Qed.

(** X6: a later answer replaces an earlier one entirely.  After two calls
    of [provide_database] for a service the store is the one the second
    call alone gives, with every one of the eight published settings and
    the local [database] from the second call; the same holds for two
    calls of [ack_roles]. *)
Theorem last_answer_wins P s :
  (∀ host port database user password schema_user schema_password state
      host' port' database' user' password' schema_user' schema_password'
      state',
     exec (provide_database P host' port' database' user' password'
             schema_user' schema_password' state')
       (exec (provide_database P host port database user password
                schema_user schema_password state) s)
     = exec (provide_database P host' port' database' user' password'
               schema_user' schema_password' state') s)
  ∧ (∀ roles roles',
       exec (ack_roles P roles') (exec (ack_roles P roles) s)
       = exec (ack_roles P roles') s).
Proof.
  unfold exec. split; intros;
    rewrite ?provide_database_run, ?ack_roles_run; simpl;
    rewrite !conv_insert_eq, !insert_insert_eq; simpl; do 2 f_equal.
  - apply map_eq. intros k. rewrite !lookup_union. simpl.
    rewrite !lookup_insert, lookup_empty.
    repeat case_decide; by destruct (published (conv P s) !! k).
  - apply insert_insert_eq.
  - by rewrite difference_twice_L.
  - apply insert_insert_eq.
  - by rewrite difference_twice_L.
Qed.

(** X13: [previous_database] gives back what [provide_database] was given:
    after [provide_database] for a service, [previous_database] of that
    service is the database provided, while [previous_database] of every
    other service and [previous_roles] of every service are what they
    were. *)
Theorem previous_database_after_provide P Q host port database user password
    schema_user schema_password state s :
  eval (previous_database P)
    (exec (provide_database P host port database user password schema_user
             schema_password state) s) = database
  ∧ (Q ≠ P →
     eval (previous_database Q)
       (exec (provide_database P host port database user password
                schema_user schema_password state) s)
     = eval (previous_database Q) s)
  ∧ eval (previous_roles Q)
      (exec (provide_database P host port database user password
               schema_user schema_password state) s)
    = eval (previous_roles Q) s.
Proof.
  unfold exec, eval.
  rewrite provide_database_run, !previous_database_run, !previous_roles_run.
  simpl. rewrite conv_insert_eq. simpl. rewrite lookup_insert_eq.
  split_and!; [done| |].
  - intros Hne. by rewrite conv_insert_ne.
  - destruct (decide (P = Q)) as [->|Hne].
    + rewrite conv_insert_eq. simpl. by rewrite lookup_insert_ne.
    + by rewrite conv_insert_ne.
Qed.

Lemma previous_database_after_provide_witness :
  eval (previous_database "mediawiki")
    (exec (provide_database "wordpress" (PyStr "10.0.0.5") (PyInt 5432)
             (PyStr "wp_db") (PyStr "wp_user") (PyStr "secret")
             (PyStr "admin_user") (PyStr "admin_secret") (PyStr "live"))
       two_services)
  = eval (previous_database "mediawiki") two_services.
Proof.
  apply (previous_database_after_provide "wordpress" "mediawiki").
  discriminate.
Defined.

(** ** What the hook handler and the queries never do *)

Lemma conv_touch P Q (s : Store) : conv Q (<[P := conv P s]> s) = conv Q s.
Proof.
  destruct (decide (P = Q)) as [->|Hne].
  - by rewrite conv_insert_eq.
  - by rewrite conv_insert_ne.
Qed.

(** X7: the hook handler only activates states, and only its own two, for
    the service of the hook: for every service the received and the
    published settings stay as they are and no active state is removed, and
    a state active afterwards that was not active before is
    [database.requested] or [roles.requested] of the service of the hook. *)
Theorem joined_changed_only_activates P Q s :
  remote (conv Q (exec (joined_changed P) s)) = remote (conv Q s)
  ∧ published (conv Q (exec (joined_changed P) s)) = published (conv Q s)
  ∧ states (conv Q s) ⊆ states (conv Q (exec (joined_changed P) s))
  ∧ (∀ st, st ∈ states (conv Q (exec (joined_changed P) s)) →
           st ∉ states (conv Q s) →
           Q = P ∧ (st = database_requested ∨ st = roles_requested)).
Proof.
  unfold exec. rewrite joined_changed_run. simpl.
  destruct (decide (P = Q)) as [->|Hne].
  - rewrite conv_insert_eq. simpl. split_and!; try done.
    + apply union_subseteq_r.
    + intros st [Hst|Hst]%elem_of_union Hn; [|done].
      apply elem_of_raised in Hst. intuition.
  - rewrite conv_insert_ne by done. split_and!; try done.
Qed.

(** X8: a query changes no conversation: after [requested_roles(service)],
    [previous_roles], [requested_database] or [previous_database] every
    service has the conversation it had, and the store itself is the same
    when it knows the service asked about. *)
Theorem queries_read_only P Q s :
  conv Q (exec (requested_roles (Some P)) s) = conv Q s
  ∧ conv Q (exec (previous_roles P) s) = conv Q s
  ∧ conv Q (exec (requested_database P) s) = conv Q s
  ∧ conv Q (exec (previous_database P) s) = conv Q s
  ∧ (is_Some (s !! P) →
       exec (requested_roles (Some P)) s = s
       ∧ exec (previous_roles P) s = s
       ∧ exec (requested_database P) s = s
       ∧ exec (previous_database P) s = s).
Proof.
  unfold exec.
  rewrite requested_roles_run, previous_roles_run, requested_database_run,
    previous_database_run. simpl.
  rewrite conv_touch. split_and!; try done.
  intros HP. by rewrite insert_conv_id.
Qed.

Lemma queries_read_only_witness :
  exec (requested_database "wordpress") two_services = two_services.
Proof.
  apply (queries_read_only "wordpress" "wordpress" two_services).
  eexists. vm_compute. reflexivity.
Defined.

(** X9: what a service requests is not changed by answering it nor by the
    hook handler: [requested_roles] and [requested_database] of any service
    give the same before and after [provide_database], [ack_roles] and
    [joined_changed] for any service. *)
Theorem requests_survive_answers P Q s :
  (∀ host port database user password schema_user schema_password state,
     eval (requested_roles (Some Q))
       (exec (provide_database P host port database user password
                schema_user schema_password state) s)
     = eval (requested_roles (Some Q)) s
     ∧ eval (requested_database Q)
         (exec (provide_database P host port database user password
                  schema_user schema_password state) s)
       = eval (requested_database Q) s)
  ∧ (∀ roles,
       eval (requested_roles (Some Q)) (exec (ack_roles P roles) s)
       = eval (requested_roles (Some Q)) s
       ∧ eval (requested_database Q) (exec (ack_roles P roles) s)
         = eval (requested_database Q) s)
  ∧ eval (requested_roles (Some Q)) (exec (joined_changed P) s)
    = eval (requested_roles (Some Q)) s
  ∧ eval (requested_database Q) (exec (joined_changed P) s)
    = eval (requested_database Q) s.
Proof.
  assert (Hconv : ∀ cv, remote cv = remote (conv P s) →
            remote (conv Q (<[P := cv]> s)) = remote (conv Q s)).
  { intros cv Hcv. destruct (decide (P = Q)) as [->|Hne].
    - by rewrite conv_insert_eq.
    - by rewrite conv_insert_ne. }
  unfold exec, eval. split_and!; intros;
    rewrite ?provide_database_run, ?ack_roles_run, ?joined_changed_run,
      ?requested_roles_run, ?requested_database_run; simpl;
    rewrite ?Hconv by done; done.
Qed.

(** X10: the hook handlers of two services commute: the hooks of two
    services may run in either order, the store is the same. *)
Theorem joined_changed_commute P Q s :
  exec (joined_changed P) (exec (joined_changed Q) s)
  = exec (joined_changed Q) (exec (joined_changed P) s).
Proof.
  destruct (decide (P = Q)) as [->|Hne]; [done|].
  unfold exec. rewrite !joined_changed_run. simpl.
  rewrite (conv_insert_ne Q P), (conv_insert_ne P Q) by done.
  by apply insert_insert_ne.
Qed.

(** ** The roles string *)

Lemma split_app sep a b :
  split sep (a ++ String sep b) = (split sep a ++ split sep b)%list.
Proof.
  induction a as [|c a IH]; simpl.
  - by rewrite Ascii.eqb_refl.
  - destruct (Ascii.eqb c sep); rewrite IH; [done|].
    pose proof (split_not_nil sep a). by destruct (split sep a).
Qed.

Lemma split_no_occurrence sep w : occurs sep w = false → split sep w = [w].
Proof.
  induction w as [|c w IH]; simpl; [done|].
  rewrite orb_false_iff. intros [-> Hw]. by rewrite IH.
Qed.

Lemma split_join sep ws :
  ws ≠ [] → Forall (λ w, occurs sep w = false) ws →
  split sep (join sep ws) = ws.
Proof.
  intros Hne Hws. induction Hws as [|w ws Hw Hws IH]; [done|].
  destruct ws as [|w' ws].
  - simpl. by apply split_no_occurrence.
  - rewrite join_cons, split_app by done.
    by rewrite split_no_occurrence, IH.
Qed.

(** X11: the roles survive the wire: when the remote [roles] of a service is
    the comma-joined string of role names that are non-empty and hold no
    comma, [requested_roles(service)] gives exactly these names, in their
    order; for no names at all it gives the empty list. *)
Theorem requested_roles_of_join P s rs :
  Forall (λ r, r ≠ "" ∧ occurs comma r = false) rs →
  remote (conv P s) !! "roles" = Some (join comma rs) →
  eval (requested_roles (Some P)) s = PyList (PyStr <$> rs).
Proof.
  intros Hrs Hremote. unfold eval. rewrite requested_roles_run, Hremote.
  simpl. do 2 f_equal. clear Hremote. destruct rs as [|r rs]; [done|].
  rewrite split_join; [|done|by eapply Forall_impl; [exact Hrs|intros ? []]].
  induction Hrs as [|x xs [Hx _] _ IH]; [done|].
  rewrite filter_cons_True by (by destruct x). by rewrite IH.
Qed.

Lemma requested_roles_of_join_witness :
  eval (requested_roles (Some "wordpress")) two_services
  = PyList [PyStr "admin"; PyStr "readonly"].
Proof.
  apply (requested_roles_of_join "wordpress" two_services ["admin"; "readonly"]).
  - repeat constructor; done.
  - vm_compute. reflexivity.
Defined.

(** X12: a service requests no role exactly when its remote [roles] is
    missing, empty, or made of commas only: [requested_roles(service)] is
    the empty list if and only if the string holds no character but the
    comma. *)
Theorem requested_roles_empty P s :
  eval (requested_roles (Some P)) s = PyList []
  ↔ ∀ c, occurs c (default "" (remote (conv P s) !! "roles")) = true →
         c = comma.
Proof.
  unfold eval. rewrite requested_roles_run. simpl.
  generalize (default "" (remote (conv P s) !! "roles")). intros v.
  assert (H : filter (λ w, truthy w) (split comma v) = []
              ↔ ∀ c, occurs c v = true → c = comma).
  { induction v as [|d v IH]; simpl; [done|].
    destruct (Ascii.eqb d comma) eqn:E.
    - apply Ascii.eqb_eq in E as ->. rewrite IH. split.
      + intros H c [Hc|Hc]%orb_true_iff; [by apply Ascii.eqb_eq in Hc|auto].
      + intros H c Hc. apply H. by rewrite Hc, orb_true_r.
    - pose proof (split_not_nil comma v).
      destruct (split comma v) as [|w ws]; [done|]. split; [done|].
      intros H'. specialize (H' d). rewrite Ascii.eqb_refl in H'.
      rewrite (H' eq_refl), Ascii.eqb_refl in E. done. }
  rewrite <- H. split.
  - intros [= Hnil]. by apply fmap_nil_inv in Hnil.
  - by intros ->.
Qed.
